(** * ObjectClient (packages/svelte/src/lib/object.svelte.ts)

    A shallow embedding of the Svelte [ObjectClient] and of
    [defaultSettingsMiddleware].

    The asynchronous [submit] is modelled as a small-step machine: the
    synchronous prefix of [submit] is [begin_submit]; every later [await]
    (the fetch, [response.text()], the [pipeTo] of the body stream) is a
    phase that is left when the outside world delivers an event (the fetch
    resolves or rejects, a decoded chunk reaches [write], the stream closes,
    the user calls [stop]).  Callback invocations are recorded in a trace.

    The library collaborators that the source imports (parsePartialJson,
    isDeepEqualData, safeValidateTypes, isAbortError, JSON.stringify,
    mergeObjects) are not part of this file's source and are kept abstract. *)

From stdpp Require Import base gmap strings list.

(** ** Errors and thrown values *)

(** A JavaScript [Error] object: its [name] and [message]. *)
Record Err := mkErr { err_name : string; err_message : string }.

(** [new Error(m)] *)
Definition new_Error (m : string) : Err := mkErr "Error" m.

(** A value caught by [catch (error)]: an [Error] instance, or any other
    value, represented by [String(value)]. *)
Inductive Thrown :=
| ThrownError (e : Err)
| ThrownValue (s : string).

(** [error instanceof Error ? error : new Error(String(error))] *)
Definition coalesce (t : Thrown) : Err :=
  match t with
  | ThrownError e => e
  | ThrownValue s => new_Error s
  end.

(** Result of [safeValidateTypes]: [{ success: true, value }] or
    [{ success: false, error }]; the value may be [undefined] when the schema
    admits it. *)
Inductive ValidationResult (V : Type) :=
| VSuccess (value : option V)
| VFailure (error : Err).
Arguments VSuccess {V} value.
Arguments VFailure {V} error.

(** Result of [JSON.stringify(input)]: a string, [undefined] (for an
    [undefined] input), or an exception (cycles, BigInt). *)
Inductive StringifyResult :=
| StringifyOk (s : option string)
| StringifyThrows (t : Thrown).

(** ** The external collaborators, as interfaces *)

Class Collaborators (V S : Type) := {
  (** [parsePartialJson(text).value]; [None] is [undefined] (failed parse) *)
  parsePartialJson : string -> option V;
  isDeepEqualData : option V -> option V -> bool;
  (** [safeValidateTypes({ value, schema })] *)
  safeValidateTypes : S -> option V -> ValidationResult V;
  isAbortError : Thrown -> bool
}.

Class JsonStringify (In : Type) := json_stringify : In -> StringifyResult.

(** ** Options and headers *)

(** [headers?: Record<string, string> | Headers] *)
Inductive HeadersInit :=
| NoHeaders
| HeadersRecord (hs : list (string * string))
| HeadersInstance (hs : list (string * string)).

(** [Experimental_ObjecClienttOptions]: [onFinish] and [onError] are recorded
    as present or absent; their invocations go to the trace.  [fetch] is not
    a field: the world events stand for whatever fetch is used. *)
Record Options (V S : Type) := mkOptions {
  opt_api : option string;
  opt_schema : S;
  opt_id : option string;
  opt_initialValue : option V;
  opt_onFinish : bool;
  opt_onError : bool;
  opt_headers : HeadersInit
}.
Arguments mkOptions {V S}.
Arguments opt_api {V S}.
Arguments opt_schema {V S}.
Arguments opt_id {V S}.
Arguments opt_initialValue {V S}.
Arguments opt_onFinish {V S}.
Arguments opt_onError {V S}.
Arguments opt_headers {V S}.

(** ** JavaScript objects with string values (the headers literal) *)

(** Property assignment in an object literal: an existing key keeps its
    position and gets the new value, a new key is appended.  This is the
    enumeration order of JavaScript for keys that are not array indices;
    array-index keys (["0"], ["1"], ...) are enumerated first by JavaScript,
    which this list order does not reflect (lookups by [js_get] are exact
    for every key). *)
Fixpoint js_set (o : list (string * string)) (k v : string)
  : list (string * string) :=
  match o with
  | [] => [(k, v)]
  | (k', v') :: o' =>
      if decide (k = k') then (k, v) :: o' else (k', v') :: js_set o' k v
  end.

Fixpoint js_get (o : list (string * string)) (k : string) : option string :=
  match o with
  | [] => None
  | (k', v') :: o' => if decide (k = k') then Some v' else js_get o' k
  end.

(** The value of a string of decimal digits, [None] if a character is not
    a digit. *)
Fixpoint digits_value (s : string) (acc : Z) : option Z :=
  match s with
  | EmptyString => Some acc
  | String c s' =>
      let d := (Z.of_nat (Ascii.nat_of_ascii c) - 48)%Z in
      if (0 <=? d)%Z && (d <=? 9)%Z then digits_value s' (acc * 10 + d)%Z
      else None
  end.

(** An array index of ECMAScript: the canonical decimal form (no leading
    zero) of an integer below 2^32 - 1. *)
Definition is_array_index (s : string) : bool :=
  match s with
  | EmptyString => false
  | String c rest =>
      (negb (Ascii.eqb c (Ascii.ascii_of_nat 48)) || String.eqb rest "") &&
      match digits_value s 0 with
      | Some n => (n <? 4294967295)%Z
      | None => false
      end
  end.

(** The own enumerable properties copied by [...this.#options.headers]:
    spreading [undefined] copies nothing, and a [Headers] instance keeps its
    entries in internal slots, not as own properties. *)
Definition spread_headers (h : HeadersInit) : list (string * string) :=
  match h with
  | NoHeaders => []
  | HeadersRecord hs => hs
  | HeadersInstance _ => []
  end.

(** [{ "Content-Type": "application/json", ...this.#options.headers }] *)
Definition request_headers (h : HeadersInit) : list (string * string) :=
  fold_left (fun o kv => js_set o kv.1 kv.2) (spread_headers h)
    [("Content-Type", "application/json")].

(** The arguments of [actualFetch(this.#api, { method, headers, signal, body })]. *)
Record Request := mkRequest {
  req_url : string;
  req_method : string;
  req_headers : list (string * string);
  req_body : option string
}.

(** ** The client state *)

Record ObjectClient (V S : Type) := mkClient {
  options : Options V S;
  (** [#id]: [options.id ?? generateId()], evaluated once *)
  cid : string;
  (** [#objects]: the [SvelteMap] *)
  objects : gmap string (option V);
  error : option Err;
  loading : bool;
  (** whether [#abortController] is set *)
  abortController : bool
}.
Arguments mkClient {V S}.
Arguments options {V S}.
Arguments cid {V S}.
Arguments objects {V S}.
Arguments error {V S}.
Arguments loading {V S}.
Arguments abortController {V S}.

Section Client.
Context {V S : Type}.

(** [#api]: [this.#options.api ?? "/api/completion"] *)
Definition api (c : ObjectClient V S) : string :=
  default "/api/completion" (opt_api (options c)).

(** getter [object]: [this.#objects.get(this.#id)]; a missing key reads as
    [undefined]. *)
Definition object (c : ObjectClient V S) : option V :=
  match objects c !! cid c with
  | Some v => v
  | None => None
  end.

(** [constructor(options)]; [generated] is the value [generateId()] returns.
    The field initialisers give [#error = undefined] and [#loading = false]. *)
Definition construct (o : Options V S) (generated : string) : ObjectClient V S :=
  let i := default generated (opt_id o) in
  mkClient o i (<[i := opt_initialValue o]> ∅) None false false.

(** [stop]: abort the controller (if any); then, in [finally], clear the
    loading flag and the controller. *)
Definition stop (c : ObjectClient V S) : ObjectClient V S :=
  mkClient (options c) (cid c) (objects c) (error c) false false.

(** The first statements of [submit]: reset the data, set loading, clear the
    error and create a new [AbortController]. *)
Definition submit_start (c : ObjectClient V S) : ObjectClient V S :=
  mkClient (options c) (cid c) (<[cid c := None]> (objects c)) None true true.

(** [this.#objects.set(this.#id, v)] *)
Definition set_object (c : ObjectClient V S) (v : option V) : ObjectClient V S :=
  mkClient (options c) (cid c) (<[cid c := v]> (objects c)) (error c)
    (loading c) (abortController c).

(** [this.#loading = false; this.#error = e] at the end of [catch] *)
Definition set_failed (c : ObjectClient V S) (e : Err) : ObjectClient V S :=
  mkClient (options c) (cid c) (objects c) (Some e) false (abortController c).

(** [this.#loading = false; this.#abortController = undefined] in [close] *)
Definition set_closed (c : ObjectClient V S) : ObjectClient V S :=
  mkClient (options c) (cid c) (objects c) (error c) false false.

End Client.

(** ** The [submit] machine *)

(** Where a pending [submit] is suspended. *)
Inductive Phase (V : Type) :=
| PFetch                                    (** [await actualFetch(...)] *)
| PText                                     (** [await response.text()] *)
| PStream (accumulatedText : string) (latestObject : option V)
                                            (** [await ...pipeTo(...)] *)
| PDone.                                    (** [submit] has returned *)
Arguments PFetch {V}.
Arguments PText {V}.
Arguments PStream {V} accumulatedText latestObject.
Arguments PDone {V}.

(** Observable calls: the callbacks, and [safeValidateTypes], which runs the
    schema's own code (refinements, transforms). *)
Inductive Call (V : Type) :=
| CallValidate (value : option V)
| CallOnFinish (object : option V) (err : option Err)
| CallOnError (e : Err).
Arguments CallValidate {V} value.
Arguments CallOnFinish {V} object err.
Arguments CallOnError {V} e.

(** The parts of the [Response] that [submit] inspects. *)
Record Response := mkResponse { resp_ok : bool; resp_has_body : bool }.

(** What the world delivers to a suspended [submit]. *)
Inductive Event :=
| EvStop                       (** the user calls [stop()] *)
| EvFetchResolves (r : Response)
| EvTextResolves (s : string)  (** [response.text()] resolves *)
| EvChunk (s : string)         (** a decoded chunk reaches [write] *)
| EvClose                      (** the stream ends: [close] runs *)
| EvRejects (t : Thrown).      (** the pending promise rejects *)

Record Config (V S : Type) := mkConfig {
  client : ObjectClient V S;
  phase : Phase V;
  calls : list (Call V);
  request : option Request
}.
Arguments mkConfig {V S}.
Arguments client {V S}.
Arguments phase {V S}.
Arguments calls {V S}.
Arguments request {V S}.

Section Submit.
Context {V S In : Type} `{!Collaborators V S} `{!JsonStringify In}.

Definition with_client (k : Config V S) (c : ObjectClient V S) : Config V S :=
  mkConfig c (phase k) (calls k) (request k).

Definition with_phase (k : Config V S) (p : Phase V) : Config V S :=
  mkConfig (client k) p (calls k) (request k).

(** The [catch (error)] block of [submit]; afterwards [submit] returns. *)
Definition on_catch (k : Config V S) (t : Thrown) : Config V S :=
  if isAbortError t then mkConfig (client k) PDone (calls k) (request k)
  else
    let e := coalesce t in
    let cs := if opt_onError (options (client k))
              then calls k ++ [CallOnError e] else calls k in
    mkConfig (set_failed (client k) e) PDone cs (request k).

(** The [write] handler of the [WritableStream]. *)
Definition on_write (k : Config V S) (acc : string) (latest : option V)
    (chunk : string) : Config V S :=
  let acc' := (acc +:+ chunk)%string in
  let currentObject := parsePartialJson acc' in
  if isDeepEqualData latest currentObject
  then with_phase k (PStream acc' latest)
  else mkConfig (set_object (client k) currentObject)
         (PStream acc' currentObject) (calls k) (request k).

(** The [close] handler of the [WritableStream]; then [pipeTo] resolves and
    [submit] returns. *)
Definition on_close (k : Config V S) (latest : option V) : Config V S :=
  let c := set_closed (client k) in
  let cs :=
    if opt_onFinish (options c) then
      calls k ++
        [CallValidate latest;
         match safeValidateTypes (opt_schema (options c)) latest with
         | VSuccess v => CallOnFinish v None
         | VFailure e => CallOnFinish None (Some e)
         end]
    else calls k in
  mkConfig c PDone cs (request k).

Definition step (k : Config V S) (ev : Event) : option (Config V S) :=
  match phase k, ev with
  | _, EvStop => Some (with_client k (stop (client k)))
  | PFetch, EvFetchResolves r =>
      if negb (resp_ok r) then Some (with_phase k PText)
      else if negb (resp_has_body r)
      then Some (on_catch k (ThrownError (new_Error "The response body is empty.")))
      else Some (with_phase k (PStream "" None))
  (* [(await response.text()) ?? "Failed to fetch the response."]: [text()]
     resolves to a string, so the fallback is never taken *)
  | PText, EvTextResolves s => Some (on_catch k (ThrownError (new_Error s)))
  | PFetch, EvRejects t | PText, EvRejects t | PStream _ _, EvRejects t =>
      Some (on_catch k t)
  | PStream acc latest, EvChunk s => Some (on_write k acc latest s)
  | PStream _ latest, EvClose => Some (on_close k latest)
  | _, _ => None
  end.

Fixpoint run (k : Config V S) (evs : list Event) : option (Config V S) :=
  match evs with
  | [] => Some k
  | ev :: evs' =>
      match step k ev with
      | Some k' => run k' evs'
      | None => None
      end
  end.

(** The synchronous part of [submit(input)], up to the first [await]: the
    state is reset, then the request is built (which evaluates
    [JSON.stringify(input)]) and [actualFetch] is called. *)
Definition begin_submit (c0 : ObjectClient V S) (input : In) : Config V S :=
  let c := submit_start c0 in
  match json_stringify input with
  | StringifyThrows t => on_catch (mkConfig c PDone [] None) t
  | StringifyOk body =>
      mkConfig c PFetch []
        (Some (mkRequest (api c) "POST"
                 (request_headers (opt_headers (options c))) body))
  end.

Definition run_submit (c0 : ObjectClient V S) (input : In) (evs : list Event)
  : option (Config V S) :=
  run (begin_submit c0 input) evs.

(** The concatenation of the chunks delivered to [write]. *)
Fixpoint chunks (evs : list Event) : list string :=
  match evs with
  | [] => []
  | EvChunk s :: evs' => s :: chunks evs'
  | _ :: evs' => chunks evs'
  end.

Definition accumulate (l : list string) : string :=
  fold_left (fun acc s => (acc +:+ s)%string) l "".

End Submit.

(** ** [defaultSettingsMiddleware] *)

Section Middleware.
Context {JV : Type}.

(** A call-options object: property name to value; a property may be
    present with value [undefined] ([None]). *)
Context (mergeObjects : option JV -> option JV -> option JV).

(** Property read [o.k]: [undefined] when absent. *)
Definition prop (o : gmap string (option JV)) (k : string) : option JV :=
  match o !! k with
  | Some v => v
  | None => None
  end.

(** [transformParams]: [{ ...settings, ...params, providerMetadata: ... }].
    For lookups, spreading [settings] then [params] is the left-biased union
    [params ∪ settings]. *)
Definition transformParams (settings params : gmap string (option JV))
  : gmap string (option JV) :=
  <["providerMetadata" :=
      mergeObjects (prop settings "providerMetadata")
                   (prop params "providerMetadata")]> (params ∪ settings).

End Middleware.

(** ** A concrete instance of the collaborators

    Used to run the machine on concrete inputs: values are numbers, the
    partial parse of a non-empty text is its length, deep equality is
    equality, and two schemas: one that admits anything (like [z.any()]) and
    one that admits even numbers only. *)

Inductive DemoSchema := AnySchema | EvenSchema.

Definition demo_type_error : Err :=
  mkErr "AI_TypeValidationError" "Type validation failed".

Definition demo_parse (s : string) : option nat :=
  match s with
  | EmptyString => None
  | _ => Some (String.length s)
  end.

Definition demo_validate (sch : DemoSchema) (v : option nat)
  : ValidationResult nat :=
  match sch, v with
  | AnySchema, _ => VSuccess v
  | EvenSchema, Some n => if Nat.even n then VSuccess (Some n)
                          else VFailure demo_type_error
  | EvenSchema, None => VFailure demo_type_error
  end.

Definition demo_is_abort (t : Thrown) : bool :=
  match t with
  | ThrownError e => bool_decide (err_name e = "AbortError")
  | ThrownValue _ => false
  end.

#[export] Instance demo_collaborators : Collaborators nat DemoSchema := {
  parsePartialJson := demo_parse;
  isDeepEqualData := fun a b => bool_decide (a = b);
  safeValidateTypes := demo_validate;
  isAbortError := demo_is_abort
}.

#[export] Instance demo_stringify : JsonStringify nat :=
  fun _ => StringifyOk (Some "{}").

Definition demo_options (sch : DemoSchema) (onFinish onError : bool)
    (h : HeadersInit) : Options nat DemoSchema :=
  mkOptions (Some "/api/object") sch (Some "obj") None onFinish onError h.

Definition demo_client (sch : DemoSchema) (onFinish onError : bool)
    (h : HeadersInit) : ObjectClient nat DemoSchema :=
  construct (demo_options sch onFinish onError h) "generated".

Definition ok_response : Response := mkResponse true true.
Definition abort_error : Thrown := ThrownError (mkErr "AbortError" "aborted").

(** A stand-in for [mergeObjects] on numbers: the override wins when present. *)
Definition demo_mergeObjects (base overrides : option nat) : option nat :=
  match overrides with
  | Some v => Some v
  | None => base
  end.

(** Inputs whose serialisation may throw, as [JSON.stringify] does on a
    BigInt: [false] stands for such an input. *)
#[export] Instance demo_stringify_bool : JsonStringify bool :=
  fun b => if b then StringifyOk (Some "true")
           else StringifyThrows (ThrownError
                  (mkErr "TypeError" "Do not know how to serialize a BigInt")).

(** ** General lemmas about the machine *)

Section Machine.
Context {V S In : Type} `{!Collaborators V S} `{!JsonStringify In}.
Implicit Types (k : Config V S) (c : ObjectClient V S).

Lemma run_app k evs1 evs2 :
  run k (evs1 ++ evs2) = run k evs1 ≫= fun k' => run k' evs2.
Proof.
  revert k. induction evs1 as [|ev evs1 IH]; intros k; simpl; [done|].
  destruct (step k ev); simpl; [apply IH|done].
Qed.

Lemma run_snoc k evs ev :
  run k (evs ++ [ev]) = run k evs ≫= fun k' => step k' ev.
Proof.
  rewrite run_app. destruct (run k evs); simpl; [|done].
  destruct (step _ ev); done.
Qed.

Lemma step_options k ev k' :
  step k ev = Some k' ->
  options (client k') = options (client k) /\ cid (client k') = cid (client k).
Proof.
  unfold step, on_catch, on_write, on_close, with_client, with_phase.
  destruct (phase k), ev; intros Hs;
    repeat match goal with
    | H : context [if ?b then _ else _] |- _ => destruct b
    end; simplify_eq/=; done.
Qed.

Lemma run_options k evs k' :
  run k evs = Some k' ->
  options (client k') = options (client k) /\ cid (client k') = cid (client k).
Proof.
  revert k. induction evs as [|ev evs IH]; intros k Hr; simpl in Hr.
  - by simplify_eq.
  - destruct (step k ev) as [k1|] eqn:Hs; [|done].
    destruct (IH _ Hr) as [-> ->]. by eapply step_options.
Qed.

Lemma begin_submit_options c0 (input : In) :
  options (client (begin_submit c0 input)) = options c0 /\
  cid (client (begin_submit c0 input)) = cid c0.
Proof.
  unfold begin_submit, on_catch.
  destruct (json_stringify input); [done|]. by destruct (isAbortError _).
Qed.

Lemma run_submit_options c0 (input : In) evs k :
  run_submit c0 input evs = Some k ->
  options (client k) = options c0 /\ cid (client k) = cid c0.
Proof.
  intros Hr. destruct (run_options _ _ _ Hr) as [-> ->].
  apply begin_submit_options.
Qed.

(** A [submit] that has returned only reacts to [stop], which changes
    neither the data, nor the error, nor the trace. *)
Lemma run_done k evs k' :
  phase k = PDone -> run k evs = Some k' ->
  phase k' = PDone /\ calls k' = calls k /\ error (client k') = error (client k)
  /\ objects (client k') = objects (client k).
Proof.
  revert k. induction evs as [|ev evs IH]; intros k Hp Hr; simpl in Hr.
  - by simplify_eq.
  - unfold step in Hr. rewrite Hp in Hr.
    destruct ev; try done.
    destruct (IH (with_client k (stop (client k))) Hp Hr) as (? & -> & -> & ->).
    done.
Qed.

(** The invariant of a pending [submit]: no error, no callback called yet,
    and the visible object is the last one [write] published. *)
Definition inflight_inv k : Prop :=
  match phase k with
  | PDone => True
  | PStream _ latest =>
      error (client k) = None /\ calls k = [] /\ object (client k) = latest
  | _ => error (client k) = None /\ calls k = [] /\ object (client k) = None
  end.

Lemma object_set_object c v : object (set_object c v) = v.
Proof. unfold object, set_object; simpl. by rewrite lookup_insert_eq. Qed.

Lemma object_stop c : object (stop c) = object c.
Proof. done. Qed.

Lemma step_inflight_inv k ev k' :
  inflight_inv k -> step k ev = Some k' -> inflight_inv k'.
Proof.
  unfold inflight_inv, step.
  destruct (phase k) as [| |acc latest|] eqn:Hp, ev; intros Hi Hs;
    simplify_eq/=; try done;
    try (unfold on_catch; destruct (isAbortError _); done);
    try (rewrite Hp; exact Hi).
  - destruct (resp_ok r), (resp_has_body r); simplify_eq/=; try done;
      unfold on_catch; destruct (isAbortError _); done.
  - unfold on_write. destruct (isDeepEqualData _ _); simpl; [done|].
    rewrite object_set_object. unfold set_object; simpl. tauto.
Qed.

Lemma run_inflight_inv k evs k' :
  inflight_inv k -> run k evs = Some k' -> inflight_inv k'.
Proof.
  revert k. induction evs as [|ev evs IH]; intros k Hi Hr; simpl in Hr.
  - by simplify_eq.
  - destruct (step k ev) as [k1|] eqn:Hs; [|done].
    eapply IH; [|exact Hr]. by eapply step_inflight_inv.
Qed.

Lemma begin_submit_inflight_inv c0 (input : In) :
  inflight_inv (begin_submit c0 input).
Proof.
  unfold inflight_inv, begin_submit.
  destruct (json_stringify input); simpl.
  - unfold object, submit_start; simpl. by rewrite lookup_insert_eq.
  - unfold on_catch. by destruct (isAbortError _).
Qed.

Lemma run_submit_inflight_inv c0 (input : In) evs k :
  run_submit c0 input evs = Some k -> inflight_inv k.
Proof.
  intros Hr. eapply run_inflight_inv; [|exact Hr].
  apply begin_submit_inflight_inv.
Qed.

End Machine.

Section Invariants.
Context {V S In : Type} `{!Collaborators V S} `{!JsonStringify In}.
Implicit Types (k : Config V S) (c : ObjectClient V S).

Lemma chunks_app evs1 evs2 : chunks (evs1 ++ evs2) = chunks evs1 ++ chunks evs2.
Proof.
  induction evs1 as [|ev evs1 IH]; [done|]. destruct ev; simpl; by rewrite ?IH.
Qed.

Lemma accumulate_snoc l s :
  accumulate (l ++ [s]) = (accumulate l +:+ s)%string.
Proof. unfold accumulate. by rewrite fold_left_app. Qed.

(** What [accumulatedText] and [latestObject] hold while the body streams. *)
Definition acc_inv (evs : list Event) k : Prop :=
  match phase k with
  | PFetch | PText => chunks evs = []
  | PStream acc latest =>
      acc = accumulate (chunks evs) /\
      (chunks evs = [] -> latest = None) /\
      (chunks evs <> [] ->
         latest = parsePartialJson acc \/
         isDeepEqualData latest (parsePartialJson acc) = true)
  | PDone => True
  end.

Lemma run_submit_acc_inv c0 (input : In) evs k :
  run_submit c0 input evs = Some k -> acc_inv evs k.
Proof.
  revert k. induction evs as [|ev evs IH] using rev_ind; intros k Hr.
  - unfold run_submit in Hr; simpl in Hr. simplify_eq.
    unfold acc_inv, begin_submit. destruct (json_stringify input); [done|].
    unfold on_catch. by destruct (isAbortError _).
  - unfold run_submit in Hr. rewrite run_snoc in Hr.
    destruct (run (begin_submit c0 input) evs) as [k0|] eqn:H0; [|done].
    simpl in Hr. specialize (IH k0 H0).
    unfold acc_inv in *. rewrite chunks_app.
    unfold step in Hr.
    destruct (phase k0) as [| |acc latest|] eqn:Hp, ev; simplify_eq/=;
      rewrite ?app_nil_r; try (rewrite Hp; exact IH);
      try (unfold on_catch; destruct (isAbortError _); done); try done.
    + destruct (resp_ok r), (resp_has_body r); simplify_eq/=; try done;
        try (unfold on_catch; destruct (isAbortError _); done).
      rewrite IH. split; [done|]. split; [done|]. by intros [].
    + destruct IH as [-> _]. rewrite accumulate_snoc.
      assert (Hne : chunks evs ++ [s] <> []) by (by destruct (chunks evs)).
      unfold on_write.
      destruct (isDeepEqualData latest _) eqn:Hd; simpl;
        (split; [done|]); (split; [intros Hn; by destruct (Hne Hn)|]);
        intros _.
      * by right.
      * by left.
Qed.

(** Every [onFinish] event in the trace comes from a [safeValidateTypes]
    call of the trace: the value on success, the error on failure. *)
Definition finish_shape (sch : S) (cs : list (Call V)) : Prop :=
  forall o e, CallOnFinish o e ∈ cs ->
  exists x, CallValidate x ∈ cs /\
    match safeValidateTypes sch x with
    | VSuccess v => o = v /\ e = None
    | VFailure err => o = None /\ e = Some err
    end.

Lemma finish_shape_mono sch cs cs' :
  finish_shape sch cs -> (forall o e, CallOnFinish o e ∈ cs' -> False) ->
  finish_shape sch (cs ++ cs').
Proof.
  intros Hf Hn o e Hin. apply elem_of_app in Hin as [Hin|Hin].
  - destruct (Hf o e Hin) as (x & Hx & Hm). exists x.
    split; [apply elem_of_app; by left|done].
  - by destruct (Hn o e Hin).
Qed.

Lemma finish_not_error (o : option V) e e' :
  CallOnFinish o e ∈ [CallOnError e'] -> False.
Proof. intros Hin. apply list_elem_of_singleton in Hin. discriminate. Qed.

Lemma run_submit_finish_shape c0 (input : In) evs k :
  run_submit c0 input evs = Some k ->
  finish_shape (opt_schema (options c0)) (calls k).
Proof.
  revert k. induction evs as [|ev evs IH] using rev_ind; intros k Hr.
  - unfold run_submit in Hr; simpl in Hr. simplify_eq.
    unfold begin_submit, on_catch.
    destruct (json_stringify input); simpl.
    + intros o e Hin. by apply elem_of_nil in Hin.
    + destruct (isAbortError _); [|destruct (opt_onError _)]; simpl;
        intros o e Hin;
        [by apply elem_of_nil in Hin | exfalso; by eapply finish_not_error
        | by apply elem_of_nil in Hin].
  - pose proof Hr as Hr'. unfold run_submit in Hr. rewrite run_snoc in Hr.
    destruct (run (begin_submit c0 input) evs) as [k0|] eqn:H0; [|done].
    simpl in Hr. specialize (IH k0 H0).
    destruct (run_submit_options c0 input evs k0 H0) as [Ho _].
    unfold step in Hr.
    destruct (phase k0) as [| |acc latest|] eqn:Hp, ev; simplify_eq/=;
      try exact IH;
      try (unfold on_catch; destruct (isAbortError _); simpl; [exact IH|];
           destruct (opt_onError _); simpl; [|exact IH];
           apply finish_shape_mono; [exact IH|];
           intros o e Hin; by eapply finish_not_error).
    + destruct (resp_ok r), (resp_has_body r); simpl in Hr; simplify_eq/=;
        try exact IH;
        unfold on_catch; destruct (isAbortError _); simpl; try exact IH;
        destruct (opt_onError _); simpl; try exact IH;
        apply finish_shape_mono; [exact IH|];
        intros o e Hin; by eapply finish_not_error.
    + unfold on_write. destruct (isDeepEqualData _ _); exact IH.
    + unfold on_close; simpl. rewrite Ho.
      destruct (opt_onFinish (options c0)); simpl; [|exact IH].
      intros o e Hin. apply elem_of_app in Hin as [Hin|Hin].
      * destruct (IH o e Hin) as (x & Hx & Hm). exists x.
        split; [apply elem_of_app; by left|done].
      * exists latest. split; [apply elem_of_app; right; by left|].
        destruct (safeValidateTypes _ latest) eqn:Hv;
          apply elem_of_cons in Hin as [Hin|Hin];
          try (by inversion Hin);
          apply list_elem_of_singleton in Hin; by inversion Hin.
Qed.

End Invariants.

(** ** Lemmas about the headers literal *)

Lemma js_get_set o k v k' :
  js_get (js_set o k v) k' = if decide (k' = k) then Some v else js_get o k'.
Proof.
  induction o as [|[k0 v0] o IH]; simpl.
  - done.
  - destruct (decide (k = k0)) as [->|Hne]; simpl.
    + by destruct (decide (k' = k0)).
    + destruct (decide (k' = k0)) as [->|Hne']; simpl.
      * by rewrite decide_False by congruence.
      * by rewrite IH.
Qed.

Lemma js_get_fold (hs : list (string * string)) o k :
  NoDup hs.*1 ->
  js_get (fold_left (fun o kv => js_set o kv.1 kv.2) hs o) k =
  match list_find (fun kv => kv.1 = k) hs with
  | Some (_, kv) => Some kv.2
  | None => js_get o k
  end.
Proof.
  revert o. induction hs as [|[k0 v0] hs IH]; intros o Hnd; simpl; [done|].
  apply NoDup_cons in Hnd as [Hnin Hnd].
  rewrite IH by done. rewrite js_get_set.
  destruct (decide (k0 = k)) as [->|Hne]; simpl.
  - rewrite decide_True by done.
    destruct (list_find _ hs) as [[i [k1 v1]]|] eqn:Hf; [|done].
    apply list_find_Some in Hf as (Hl & Hk & _). simpl in Hk; subst k1.
    exfalso. apply Hnin. apply list_elem_of_fmap.
    exists (k, v1). split; [done|]. by eapply list_elem_of_lookup_2.
  - rewrite decide_False by congruence.
    destruct (list_find _ hs) as [[i [k1 v1]]|]; done.
Qed.

(** ** The claims *)

Section Claims.
Context {V S In : Type} `{!Collaborators V S} `{!JsonStringify In}.
Implicit Types (k : Config V S) (c : ObjectClient V S).

Lemma close_step c0 (input : In) evs k acc latest k' :
  run_submit c0 input evs = Some k -> phase k = PStream acc latest ->
  run_submit c0 input (evs ++ [EvClose]) = Some k' ->
  k' = on_close k latest.
Proof.
  intros Hk Hp Hk'. unfold run_submit in *. rewrite run_snoc, Hk in Hk'.
  simpl in Hk'. unfold step in Hk'. rewrite Hp in Hk'. by simplify_eq.
Qed.

(** C1: when the stream completes and the final [latestObject] fails schema
    validation (with [onFinish] provided), [onFinish] receives
    [{ object: undefined, error }], [onError] is not called, and the error
    field stays unset, also after any later events. *)
Theorem C1_validation_error_only_via_onFinish c0 (input : In) evs k acc latest
    e k' :
  opt_onFinish (options c0) = true ->
  run_submit c0 input evs = Some k -> phase k = PStream acc latest ->
  safeValidateTypes (opt_schema (options c0)) latest = VFailure e ->
  run_submit c0 input (evs ++ [EvClose]) = Some k' ->
  calls k' = [CallValidate latest; CallOnFinish None (Some e)] /\
  error (client k') = None /\
  (forall evs' k'', run k' evs' = Some k'' ->
     calls k'' = calls k' /\ error (client k'') = None).
Proof.
  intros Hf Hk Hp Hv Hk'.
  pose proof (close_step _ _ _ _ _ _ _ Hk Hp Hk') as ->.
  pose proof (run_submit_inflight_inv _ _ _ _ Hk) as Hi.
  unfold inflight_inv in Hi. rewrite Hp in Hi. destruct Hi as (He & Hc & _).
  destruct (run_submit_options _ _ _ _ Hk) as [Ho _].
  assert (Hcl : calls (on_close k latest) =
                [CallValidate latest; CallOnFinish None (Some e)]).
  { unfold on_close; simpl. rewrite Ho, Hf, Hv, Hc. done. }
  assert (Her : error (client (on_close k latest)) = None) by exact He.
  split; [exact Hcl|]. split; [exact Her|].
  intros evs' k'' Hr.
  assert (Hd : phase (on_close k latest) = PDone) by done.
  destruct (run_done _ _ _ Hd Hr) as (_ & -> & -> & _). done.
Qed.

(** C2 (amended): at close, [safeValidateTypes] runs only when [onFinish] is
    provided, and it is given [latestObject]: [undefined] if no chunk
    arrived, otherwise the partial parse of the whole accumulated text or a
    value deep-equal to it (so [undefined] again if that parse fails). *)
Theorem C2_close_validates_latestObject c0 (input : In) evs k acc latest k' :
  run_submit c0 input evs = Some k -> phase k = PStream acc latest ->
  run_submit c0 input (evs ++ [EvClose]) = Some k' ->
  (opt_onFinish (options c0) = false -> calls k' = []) /\
  (opt_onFinish (options c0) = true ->
     exists r, calls k' = [CallValidate latest; r]) /\
  acc = accumulate (chunks evs) /\
  (chunks evs = [] -> latest = None) /\
  (chunks evs <> [] ->
     latest = parsePartialJson acc \/
     isDeepEqualData latest (parsePartialJson acc) = true).
Proof.
  intros Hk Hp Hk'.
  pose proof (close_step _ _ _ _ _ _ _ Hk Hp Hk') as ->.
  pose proof (run_submit_inflight_inv _ _ _ _ Hk) as Hi.
  unfold inflight_inv in Hi. rewrite Hp in Hi. destruct Hi as (_ & Hc & _).
  destruct (run_submit_options _ _ _ _ Hk) as [Ho _].
  pose proof (run_submit_acc_inv _ _ _ _ Hk) as Ha.
  unfold acc_inv in Ha. rewrite Hp in Ha.
  unfold on_close; simpl. rewrite Ho, Hc.
  split; [intros ->; done|]. split; [intros ->; simpl; by eexists|].
  exact Ha.
Qed.

(** C3 (amended): every [onFinish] event carries the result of
    [safeValidateTypes] on a value that was validated: on success the
    validated value (which is [undefined] when the schema admits it) with no
    error, on failure no object and the validation error; never both. *)
Theorem C3_onFinish_never_both c0 (input : In) evs k o e :
  run_submit c0 input evs = Some k -> CallOnFinish o e ∈ calls k ->
  (o = None \/ e = None) /\
  exists x, CallValidate x ∈ calls k /\
    match safeValidateTypes (opt_schema (options c0)) x with
    | VSuccess v => o = v /\ e = None
    | VFailure err => o = None /\ e = Some err
    end.
Proof.
  intros Hk Hin.
  destruct (run_submit_finish_shape _ _ _ _ Hk o e Hin) as (x & Hx & Hm).
  split; [|by exists x].
  destruct (safeValidateTypes _ x); destruct Hm; [right|left]; done.
Qed.

(** The outcome of a failed request: the error is stored, the loading flag
    is cleared, [onError] (if provided) got the same error, and [submit] has
    returned. *)
Definition failed_with k (e : Err) : Prop :=
  error (client k) = Some e /\ loading (client k) = false /\
  calls k = (if opt_onError (options (client k)) then [CallOnError e] else []) /\
  phase k = PDone.

Lemma on_catch_failed k t :
  calls k = [] -> isAbortError t = false -> failed_with (on_catch k t) (coalesce t).
Proof.
  intros Hc Ha. unfold on_catch. rewrite Ha. unfold failed_with; simpl.
  rewrite Hc. destruct (opt_onError _); done.
Qed.

(** C4: a response with a non-success status (whether [response.text()]
    resolves or rejects with a non-abort error), or a successful response
    without a body, makes [submit] fail: the error is an [Error] object
    ([new Error(text)], [new Error("The response body is empty.")], or the
    coalesced rejection), [onError] receives it when provided, the error
    field holds it and loading is false. *)
Theorem C4_http_failure_surfaces c0 (input : In) b :
  json_stringify input = StringifyOk b ->
  (forall m, isAbortError (ThrownError (new_Error m)) = false) ->
  (forall r s k, resp_ok r = false ->
     run_submit c0 input [EvFetchResolves r; EvTextResolves s] = Some k ->
     failed_with k (new_Error s)) /\
  (forall r t k, resp_ok r = false -> isAbortError t = false ->
     run_submit c0 input [EvFetchResolves r; EvRejects t] = Some k ->
     failed_with k (coalesce t)) /\
  (forall r k, resp_ok r = true -> resp_has_body r = false ->
     run_submit c0 input [EvFetchResolves r] = Some k ->
     failed_with k (new_Error "The response body is empty.")).
Proof.
  intros Hj Hna. unfold run_submit, begin_submit. rewrite Hj.
  split; [|split].
  - intros r s k Hok Hr. simpl in Hr. unfold step in Hr. simpl in Hr.
    rewrite Hok in Hr. simpl in Hr.
    simplify_eq. by apply (on_catch_failed _ (ThrownError (new_Error s))).
  - intros r t k Hok Ht Hr. simpl in Hr. unfold step in Hr. simpl in Hr.
    rewrite Hok in Hr. simpl in Hr.
    simplify_eq. by apply on_catch_failed.
  - intros r k Hok Hb Hr. simpl in Hr. unfold step in Hr. simpl in Hr.
    rewrite Hok, Hb in Hr. simpl in Hr.
    simplify_eq.
    by apply (on_catch_failed _ (ThrownError (new_Error _))).
Qed.

(** C5: [stop] during a pending request, followed by the abort rejection,
    leaves the stored objects unchanged, sets no error, calls no callback,
    and [submit] returns with loading cleared. *)
Theorem C5_stop_is_silent c0 (input : In) evs k t :
  run_submit c0 input evs = Some k -> phase k <> PDone -> isAbortError t = true ->
  exists k', run_submit c0 input (evs ++ [EvStop; EvRejects t]) = Some k' /\
    objects (client k') = objects (client k) /\
    object (client k') = object (client k) /\
    error (client k') = None /\ loading (client k') = false /\
    calls k' = [] /\ phase k' = PDone.
Proof.
  intros Hk Hp Ht.
  pose proof (run_submit_inflight_inv _ _ _ _ Hk) as Hi.
  assert (He : error (client k) = None /\ calls k = []).
  { unfold inflight_inv in Hi. destruct (phase k); tauto. }
  destruct He as [He Hc].
  assert (Hs1 : step k EvStop = Some (with_client k (stop (client k)))).
  { unfold step. destruct (phase k); done. }
  unfold run_submit in *. rewrite run_app, Hk. cbn [mbind option_bind run].
  rewrite Hs1.
  assert (Hst : step (with_client k (stop (client k))) (EvRejects t) =
                Some (on_catch (with_client k (stop (client k))) t)).
  { unfold step, with_client; simpl. destruct (phase k); done. }
  rewrite Hst. eexists. split; [reflexivity|].
  unfold on_catch. rewrite Ht. simpl. rewrite He, Hc. done.
Qed.

(** C6: before the request is issued, [submit] resets the stored object of
    the client's id to [undefined], sets loading and clears the error,
    whatever state the client was in (a pending earlier request included). *)
Theorem C6_submit_resets_first c0 (input : In) b :
  json_stringify input = StringifyOk b ->
  client (begin_submit c0 input) = submit_start c0 /\
  request (begin_submit c0 input) <> None /\
  object (submit_start c0) = None /\ loading (submit_start c0) = true /\
  error (submit_start c0) = None.
Proof.
  intros Hj. unfold begin_submit. rewrite Hj; simpl.
  unfold object, submit_start; simpl. rewrite lookup_insert_eq. done.
Qed.

(** C7: each chunk is parsed as part of the accumulated text; the visible
    object is the previously published value, and it is replaced only when
    the new parse is not deep-equal to it; otherwise no client state
    changes. *)
Theorem C7_write_publishes_only_changes c0 (input : In) evs k acc latest s k' :
  run_submit c0 input evs = Some k -> phase k = PStream acc latest ->
  run_submit c0 input (evs ++ [EvChunk s]) = Some k' ->
  let currentObject := parsePartialJson (acc +:+ s)%string in
  object (client k) = latest /\
  (isDeepEqualData (object (client k)) currentObject = true ->
     client k' = client k) /\
  (isDeepEqualData (object (client k)) currentObject = false ->
     client k' = set_object (client k) currentObject /\
     object (client k') = currentObject).
Proof.
  intros Hk Hp Hk' cur.
  pose proof (run_submit_inflight_inv _ _ _ _ Hk) as Hi.
  unfold inflight_inv in Hi. rewrite Hp in Hi. destruct Hi as (_ & _ & Hob).
  unfold run_submit in *. rewrite run_snoc, Hk in Hk'. simpl in Hk'.
  unfold step in Hk'. rewrite Hp in Hk'. injection Hk' as <-.
  rewrite Hob. unfold on_write. fold cur.
  split; [done|]. split.
  - intros ->. done.
  - intros ->. simpl. split; [done|]. apply object_set_object.
Qed.

End Claims.

Lemma NoDup_fst_unique (hs : list (string * string)) k v1 v2 :
  NoDup hs.*1 -> (k, v1) ∈ hs -> (k, v2) ∈ hs -> v1 = v2.
Proof.
  induction hs as [|[k0 v0] hs IH]; intros Hnd H1 H2.
  - by apply elem_of_nil in H1.
  - simpl in Hnd. apply NoDup_cons in Hnd as [Hnin Hnd].
    apply elem_of_cons in H1 as [H1|H1], H2 as [H2|H2]; simplify_eq; try done.
    + exfalso. apply Hnin. apply list_elem_of_fmap. by exists (k0, v2).
    + exfalso. apply Hnin. apply list_elem_of_fmap. by exists (k0, v1).
    + by apply IH.
Qed.

(** The request headers, for headers given as a record (or not given). *)
Lemma request_headers_record (hs : list (string * string)) k :
  NoDup hs.*1 ->
  js_get (request_headers (HeadersRecord hs)) k =
  match list_find (fun kv => kv.1 = k) hs with
  | Some (_, kv) => Some kv.2
  | None => js_get [("Content-Type", "application/json")] k
  end.
Proof. intros Hnd. unfold request_headers; simpl. by apply js_get_fold. Qed.

Section RequestClaims.
Context {V S In : Type} `{!Collaborators V S} `{!JsonStringify In}.

(** C8 (amended): the request is a POST to [#api] (the configured [api], or
    "/api/completion" when it is missing) with body [JSON.stringify(input)];
    for headers given as a record (or not given), every configured header is
    in the request headers with its configured value, and Content-Type is
    application/json unless the record sets Content-Type itself, in which
    case the configured value wins. *)
Theorem C8_request_post_json c0 (input : In) b hs :
  json_stringify input = StringifyOk b ->
  (opt_headers (options c0) = NoHeaders /\ hs = [] \/
   opt_headers (options c0) = HeadersRecord hs) ->
  NoDup hs.*1 ->
  exists rq, request (begin_submit c0 input) = Some rq /\
    req_url rq = default "/api/completion" (opt_api (options c0)) /\
    req_method rq = "POST" /\ req_body rq = b /\
    (forall k v, (k, v) ∈ hs -> js_get (req_headers rq) k = Some v) /\
    ("Content-Type" ∉ hs.*1 ->
       js_get (req_headers rq) "Content-Type" = Some "application/json").
Proof.
  intros Hj Hh Hnd. unfold begin_submit. rewrite Hj. eexists.
  split; [reflexivity|]. simpl.
  assert (Hrh : request_headers (opt_headers (options c0)) =
                request_headers (HeadersRecord hs)).
  { destruct Hh as [[-> ->] | ->]; done. }
  rewrite Hrh. split; [done|]. split; [done|]. split; [done|]. split.
  - intros k v Hin. rewrite request_headers_record by done.
    destruct (list_find (fun kv => kv.1 = k) hs) as [[i [k1 v1]]|] eqn:Hf.
    + apply list_find_Some in Hf as (Hl & Hk & _). simpl in Hk; subst k1.
      simpl. f_equal. eapply NoDup_fst_unique; [done| |done].
      by eapply list_elem_of_lookup_2.
    + apply list_find_None in Hf. rewrite Forall_forall in Hf.
      by destruct (Hf (k, v) Hin).
  - intros Hnin. rewrite request_headers_record by done.
    destruct (list_find (fun kv => kv.1 = "Content-Type") hs)
      as [[i [k1 v1]]|] eqn:Hf; [|done].
    apply list_find_Some in Hf as (Hl & Hk & _). simpl in Hk; subst k1.
    exfalso. apply Hnin. apply list_elem_of_fmap. exists ("Content-Type", v1).
    split; [done|]. by eapply list_elem_of_lookup_2.
Qed.

End RequestClaims.

(** The spread of a [Headers] instance copies no property: only the default
    Content-Type header reaches the request. *)
Lemma headers_instance_dropped (hs : list (string * string)) :
  request_headers (HeadersInstance hs) = [("Content-Type", "application/json")].
Proof. done. Qed.

(** C9: [transformParams] keeps the value of every key present in [params]
    (params override the default settings), except [providerMetadata], which
    is [mergeObjects(settings.providerMetadata, params.providerMetadata)]. *)
Theorem C9_transformParams_params_win {JV : Type}
    (mergeObjects : option JV -> option JV -> option JV)
    (settings params : gmap string (option JV)) :
  (forall k, k <> "providerMetadata" -> is_Some (params !! k) ->
     transformParams mergeObjects settings params !! k = params !! k) /\
  transformParams mergeObjects settings params !! "providerMetadata" =
    Some (mergeObjects (prop settings "providerMetadata")
                       (prop params "providerMetadata")).
Proof.
  unfold transformParams. split.
  - intros k Hne Hs. rewrite lookup_insert_ne by congruence.
    by apply lookup_union_l'.
  - by rewrite lookup_insert_eq.
Qed.

(** C10: right after construction, and after any number of [stop] calls
    before a [submit], the object is [options.initialValue], there is no
    error and loading is false. *)
Theorem C10_initial_state {V S : Type} (o : Options V S) (generated : string)
    (n : nat) :
  let c := Nat.iter n stop (construct o generated) in
  object c = opt_initialValue o /\ error c = None /\ loading c = false.
Proof.
  induction n as [|n IH]; simpl.
  - unfold object, construct; simpl. by rewrite lookup_insert_eq.
  - destruct IH as (Hob & Her & _). rewrite object_stop. done.
Qed.

(** ** Witnesses and counterexamples on the demo collaborators *)

Lemma C1_witness :
  exists k k',
    run_submit (demo_client EvenSchema true true NoHeaders) 0
      [EvFetchResolves ok_response; EvChunk "abc"] = Some k /\
    phase k = PStream "abc" (Some 3) /\
    run_submit (demo_client EvenSchema true true NoHeaders) 0
      ([EvFetchResolves ok_response; EvChunk "abc"] ++ [EvClose]) = Some k' /\
    calls k' = [CallValidate (Some 3); CallOnFinish None (Some demo_type_error)] /\
    error (client k') = None.
Proof.
  eexists _, _. split; [reflexivity|]. split; [reflexivity|].
  split; [reflexivity|].
  edestruct (C1_validation_error_only_via_onFinish
               (demo_client EvenSchema true true NoHeaders) 0
               [EvFetchResolves ok_response; EvChunk "abc"])
    as (H1 & H2 & _);
    [reflexivity|reflexivity|reflexivity|reflexivity|reflexivity|].
  split; [exact H1|exact H2].
Defined.

Lemma C2_witness :
  exists k k',
    run_submit (demo_client EvenSchema true false NoHeaders) 0
      [EvFetchResolves ok_response; EvChunk "a"; EvChunk "b"] = Some k /\
    phase k = PStream "ab" (Some 2) /\
    run_submit (demo_client EvenSchema true false NoHeaders) 0
      ([EvFetchResolves ok_response; EvChunk "a"; EvChunk "b"] ++ [EvClose])
      = Some k' /\
    (exists r, calls k' = [CallValidate (Some 2); r]) /\
    "ab" = accumulate ["a"; "b"].
Proof.
  eexists _, _. split; [reflexivity|]. split; [reflexivity|].
  split; [reflexivity|].
  edestruct (C2_close_validates_latestObject
               (demo_client EvenSchema true false NoHeaders) 0
               [EvFetchResolves ok_response; EvChunk "a"; EvChunk "b"])
    as (_ & H2 & H3 & _); [reflexivity|reflexivity|reflexivity|].
  split; [exact (H2 eq_refl)|exact H3].
Defined.

(** C2 fails without [onFinish]: the stream completes normally and the last
    parsed value is never validated. *)
Lemma C2_counterexample :
  exists k k',
    run_submit (demo_client EvenSchema false false NoHeaders) 0
      [EvFetchResolves ok_response; EvChunk "ab"] = Some k /\
    phase k = PStream "ab" (Some 2) /\
    run_submit (demo_client EvenSchema false false NoHeaders) 0
      ([EvFetchResolves ok_response; EvChunk "ab"] ++ [EvClose]) = Some k' /\
    phase k' = PDone /\
    forall x, CallValidate x ∉ calls k'.
Proof.
  eexists _, _. split; [reflexivity|]. split; [reflexivity|].
  split; [reflexivity|]. split; [reflexivity|].
  intros x Hin. vm_compute in Hin. by apply elem_of_nil in Hin.
Qed.

Lemma C3_witness :
  exists k,
    run_submit (demo_client EvenSchema true false NoHeaders) 0
      [EvFetchResolves ok_response; EvChunk "ab"; EvClose] = Some k /\
    CallOnFinish (Some 2) None ∈ calls k /\
    (Some 2 = None \/ (None : option Err) = None).
Proof.
  eexists. split; [reflexivity|].
  assert (Hin : CallOnFinish (Some 2) None ∈
            [CallValidate (Some 2); CallOnFinish (Some 2) (None : option Err)]).
  { apply elem_of_cons. right. by apply list_elem_of_singleton. }
  split; [exact Hin|].
  edestruct (C3_onFinish_never_both
               (demo_client EvenSchema true false NoHeaders) 0
               [EvFetchResolves ok_response; EvChunk "ab"; EvClose])
    as (H1 & _); [reflexivity|exact Hin|exact H1].
Defined.

(** C3 fails for a schema that admits [undefined] (like [z.any()]) and an
    empty stream: [onFinish] gets neither an object nor an error. *)
Lemma C3_counterexample :
  exists k,
    run_submit (demo_client AnySchema true false NoHeaders) 0
      [EvFetchResolves ok_response; EvClose] = Some k /\
    CallOnFinish None None ∈ calls k.
Proof.
  eexists. split; [reflexivity|]. vm_compute.
  apply elem_of_cons. right. by apply list_elem_of_singleton.
Qed.

Lemma C4_witness :
  exists k1 k2,
    run_submit (demo_client EvenSchema true true NoHeaders) 0
      [EvFetchResolves (mkResponse false true); EvTextResolves "Internal"]
      = Some k1 /\
    failed_with k1 (new_Error "Internal") /\
    run_submit (demo_client EvenSchema true true NoHeaders) 0
      [EvFetchResolves (mkResponse true false)] = Some k2 /\
    failed_with k2 (new_Error "The response body is empty.").
Proof.
  edestruct (C4_http_failure_surfaces
               (demo_client EvenSchema true true NoHeaders) 0 (Some "{}"))
    as (H1 & _ & H3); [reflexivity|intros m; reflexivity|].
  eexists _, _. split; [reflexivity|]. split.
  { eapply (H1 (mkResponse false true) "Internal"); reflexivity. }
  split; [reflexivity|].
  eapply (H3 (mkResponse true false)); reflexivity.
Defined.

Lemma C5_witness :
  exists k,
    run_submit (demo_client EvenSchema true true NoHeaders) 0
      [EvFetchResolves ok_response; EvChunk "ab"] = Some k /\
    phase k <> PDone /\
    exists k', run_submit (demo_client EvenSchema true true NoHeaders) 0
      ([EvFetchResolves ok_response; EvChunk "ab"] ++
       [EvStop; EvRejects abort_error]) = Some k' /\
    object (client k') = object (client k) /\
    error (client k') = None /\ loading (client k') = false /\ calls k' = [].
Proof.
  eexists. split; [reflexivity|].
  match goal with
  | |- phase ?k <> PDone /\ _ =>
      assert (Hp : phase k <> PDone) by (vm_compute; congruence);
      destruct (C5_stop_is_silent
                  (demo_client EvenSchema true true NoHeaders) 0
                  [EvFetchResolves ok_response; EvChunk "ab"] k abort_error)
        as (k' & Hr & _ & Hob & He & Hl & Hc & _);
        [vm_compute; reflexivity|exact Hp|reflexivity|]
  end.
  split; [vm_compute; congruence|]. exists k'. split; [exact Hr|].
  split; [exact Hob|]. split; [exact He|]. split; [exact Hl|exact Hc].
Defined.

(** A second [submit] while a first one is streaming: the partial object
    published by the first is discarded before the new request is issued. *)
Lemma C6_witness :
  exists k,
    run_submit (demo_client EvenSchema true true NoHeaders) 0
      [EvFetchResolves ok_response; EvChunk "ab"] = Some k /\
    object (client k) = Some 2 /\
    client (begin_submit (client k) 0) = submit_start (client k) /\
    object (submit_start (client k)) = None /\
    loading (submit_start (client k)) = true.
Proof.
  eexists. split; [reflexivity|]. split; [reflexivity|].
  match goal with
  | |- client (begin_submit ?c 0) = _ /\ _ =>
      destruct (C6_submit_resets_first c 0 (Some "{}"))
        as (H1 & _ & H3 & H4 & _); [reflexivity|]
  end.
  split; [exact H1|]. split; [exact H3|exact H4].
Defined.

Lemma C7_witness :
  exists k k',
    run_submit (demo_client EvenSchema true true NoHeaders) 0
      [EvFetchResolves ok_response; EvChunk "ab"] = Some k /\
    phase k = PStream "ab" (Some 2) /\
    run_submit (demo_client EvenSchema true true NoHeaders) 0
      ([EvFetchResolves ok_response; EvChunk "ab"] ++ [EvChunk "c"]) = Some k' /\
    object (client k) = Some 2 /\ object (client k') = Some 3.
Proof.
  eexists _, _. split; [reflexivity|]. split; [reflexivity|].
  split; [reflexivity|].
  match goal with
  | |- object (client ?k) = _ /\ object (client ?k') = _ =>
      destruct (C7_write_publishes_only_changes
                  (demo_client EvenSchema true true NoHeaders) 0
                  [EvFetchResolves ok_response; EvChunk "ab"] k "ab" (Some 2)
                  "c" k')
        as (H1 & _ & H3);
        [vm_compute; reflexivity|vm_compute; reflexivity
        |vm_compute; reflexivity|]
  end.
  split; [exact H1|]. rewrite H1 in H3. exact (proj2 (H3 eq_refl)).
Defined.

Lemma C8_witness :
  exists rq,
    request (begin_submit
      (demo_client EvenSchema true true (HeadersRecord [("X-Trace", "1")])) 0)
      = Some rq /\
    req_method rq = "POST" /\
    js_get (req_headers rq) "X-Trace" = Some "1" /\
    js_get (req_headers rq) "Content-Type" = Some "application/json".
Proof.
  edestruct (C8_request_post_json
               (demo_client EvenSchema true true (HeadersRecord [("X-Trace", "1")]))
               0 (Some "{}") [("X-Trace", "1")])
    as (rq & H1 & _ & H3 & _ & H5 & H6);
    [reflexivity|right; reflexivity|simpl; apply NoDup_singleton|].
  exists rq. split; [exact H1|]. split; [exact H3|]. split.
  - apply H5. by apply list_elem_of_singleton.
  - apply H6. simpl. intros Hin. apply list_elem_of_singleton in Hin.
    discriminate.
Defined.

(** C8 fails when the configured record sets Content-Type: the configured
    value replaces application/json. *)
Lemma C8_counterexample :
  exists rq,
    request (begin_submit
      (demo_client EvenSchema true true
         (HeadersRecord [("Content-Type", "text/plain")])) 0) = Some rq /\
    js_get (req_headers rq) "Content-Type" = Some "text/plain" /\
    ("Content-Type", "application/json") ∉ req_headers rq.
Proof.
  eexists. split; [reflexivity|]. split; [reflexivity|].
  simpl. intros Hin. apply list_elem_of_singleton in Hin. discriminate.
Qed.

Lemma C9_witness :
  let settings : gmap string (option nat) :=
    <["temperature" := Some 1]> {["providerMetadata" := Some 10]} in
  let params : gmap string (option nat) := {["temperature" := Some 2]} in
  transformParams demo_mergeObjects settings params !! "temperature" = Some (Some 2) /\
  transformParams demo_mergeObjects settings params !! "providerMetadata" =
    Some (Some 10).
Proof.
  intros settings params.
  destruct (C9_transformParams_params_win demo_mergeObjects settings params)
    as [H1 H2].
  split.
  - apply H1; [discriminate|]. eexists. reflexivity.
  - rewrite H2. reflexivity.
Defined.

(** ** Further properties of [submit] *)

Section MoreSubmit.
Context {V S In : Type} `{!Collaborators V S} `{!JsonStringify In}.
Implicit Types (k : Config V S) (c : ObjectClient V S).

Lemma step_objects_frame k ev k' j :
  j <> cid (client k) -> step k ev = Some k' ->
  objects (client k') !! j = objects (client k) !! j.
Proof.
  intros Hj. unfold step, on_catch, on_write, on_close, with_client, with_phase.
  destruct (phase k), ev; intros Hs;
    repeat match goal with
    | H : context [if ?b then _ else _] |- _ => destruct b
    end; simplify_eq/=; try done.
  unfold set_object; simpl. by rewrite lookup_insert_ne by congruence.
Qed.

(** [submit] only ever writes the entry of the client's own id in [#objects]. *)
Theorem submit_objects_frame c0 (input : In) evs k j :
  run_submit c0 input evs = Some k -> j <> cid c0 ->
  objects (client k) !! j = objects c0 !! j.
Proof.
  unfold run_submit. intros Hr Hj.
  assert (Hb : objects (client (begin_submit c0 input)) !! j = objects c0 !! j).
  { unfold begin_submit, on_catch.
    destruct (json_stringify input); simpl;
      [|destruct (isAbortError _); simpl];
      unfold set_failed; simpl; by rewrite lookup_insert_ne by congruence. }
  rewrite <- Hb. clear Hb.
  assert (Hc : cid (client (begin_submit c0 input)) = cid c0)
    by apply begin_submit_options.
  rewrite <- Hc in Hj. clear Hc. revert Hr Hj.
  generalize (begin_submit c0 input). clear c0 input.
  induction evs as [|ev evs IH]; intros k0 Hr Hj; simpl in Hr; [by simplify_eq|].
  destruct (step k0 ev) as [k1|] eqn:Hs; [|done].
  destruct (step_options _ _ _ Hs) as [_ Hcid].
  rewrite (IH k1 Hr) by congruence. by eapply step_objects_frame.
Qed.

(** A stream that fails in the middle with a non-abort error keeps the
    partial object it published; the error (coalesced to an [Error]) is
    stored and passed to [onError], and loading is cleared. *)
Theorem stream_failure_keeps_partial c0 (input : In) evs k acc latest t :
  run_submit c0 input evs = Some k -> phase k = PStream acc latest ->
  isAbortError t = false ->
  exists k', run_submit c0 input (evs ++ [EvRejects t]) = Some k' /\
    object (client k') = latest /\
    error (client k') = Some (coalesce t) /\ loading (client k') = false /\
    calls k' = (if opt_onError (options c0) then [CallOnError (coalesce t)]
                else []) /\
    phase k' = PDone.
Proof.
  intros Hk Hp Ht.
  pose proof (run_submit_inflight_inv _ _ _ _ Hk) as Hi.
  unfold inflight_inv in Hi. rewrite Hp in Hi. destruct Hi as (_ & Hc & Hob).
  destruct (run_submit_options _ _ _ _ Hk) as [Ho _].
  unfold run_submit in *. rewrite run_snoc, Hk. simpl.
  unfold step. rewrite Hp. eexists. split; [reflexivity|].
  unfold on_catch. rewrite Ht. simpl. rewrite Ho, Hc.
  split; [exact Hob|]. by destruct (opt_onError _).
Qed.

(** When [JSON.stringify(input)] throws a non-abort error, no request is
    made: [submit] fails at once, after it has already reset the object of
    its id to [undefined]. *)
Theorem stringify_failure_no_request c0 (input : In) t :
  json_stringify input = StringifyThrows t -> isAbortError t = false ->
  request (begin_submit c0 input) = None /\
  phase (begin_submit c0 input) = PDone /\
  object (client (begin_submit c0 input)) = None /\
  error (client (begin_submit c0 input)) = Some (coalesce t) /\
  loading (client (begin_submit c0 input)) = false /\
  calls (begin_submit c0 input) =
    (if opt_onError (options c0) then [CallOnError (coalesce t)] else []).
Proof.
  intros Hj Ht. unfold begin_submit. rewrite Hj. unfold on_catch. rewrite Ht.
  simpl. unfold object, set_failed; simpl. rewrite lookup_insert_eq.
  by destruct (opt_onError _).
Qed.

Lemma step_keeps_loading k ev k' :
  ev <> EvStop -> loading (client k) = true -> step k ev = Some k' ->
  phase k' <> PDone -> loading (client k') = true.
Proof.
  intros Hev Hl. unfold step, on_catch, on_write, on_close, with_phase.
  destruct (phase k), ev; intros Hs Hp; try congruence;
    repeat match goal with
    | H : context [if ?b then _ else _] |- _ => destruct b
    end; simplify_eq/=; done.
Qed.

Lemma run_keeps_loading k evs k' :
  EvStop ∉ evs -> loading (client k) = true -> phase k <> PDone ->
  run k evs = Some k' -> phase k' <> PDone -> loading (client k') = true.
Proof.
  revert k. induction evs as [|ev evs IH]; intros k Hns Hl Hp Hr Hp';
    simpl in Hr; [by simplify_eq|].
  destruct (step k ev) as [k1|] eqn:Hs; [|done].
  apply not_elem_of_cons in Hns as [Hev Hns].
  assert (Hd : phase k1 <> PDone).
  { intros Hd. destruct (run_done _ _ _ Hd Hr) as [Hd' _]. congruence. }
  eapply IH; [exact Hns| |exact Hd|exact Hr|exact Hp'].
  apply (step_keeps_loading k ev k1); [congruence|exact Hl|exact Hs|exact Hd].
Qed.

(** An abort error that does not come from [stop] (e.g. a timeout the fetch
    reports as an abort) ends [submit] silently but leaves the loading flag
    set: only [stop] clears it on that path. *)
Theorem abort_without_stop_keeps_loading c0 (input : In) evs k t :
  run_submit c0 input evs = Some k -> EvStop ∉ evs -> phase k <> PDone ->
  isAbortError t = true ->
  exists k', run_submit c0 input (evs ++ [EvRejects t]) = Some k' /\
    phase k' = PDone /\ loading (client k') = true /\
    error (client k') = None /\ calls k' = [].
Proof.
  intros Hk Hns Hp Ht.
  pose proof (run_submit_inflight_inv _ _ _ _ Hk) as Hi.
  assert (He : error (client k) = None /\ calls k = []).
  { unfold inflight_inv in Hi. destruct (phase k); tauto. }
  destruct He as [He Hc].
  assert (Hb : phase (begin_submit c0 input) <> PDone /\
               loading (client (begin_submit c0 input)) = true).
  { unfold run_submit, begin_submit in Hk |- *.
    destruct (json_stringify input) as [b|t0] eqn:Hj; [done|].
    exfalso. apply Hp.
    assert (Hd0 : phase (on_catch (mkConfig (submit_start c0) PDone [] None) t0)
                  = PDone) by (unfold on_catch; by destruct (isAbortError t0)).
    by destruct (run_done _ _ _ Hd0 Hk) as [? _]. }
  destruct Hb as [Hb1 Hb2].
  pose proof (run_keeps_loading _ _ _ Hns Hb2 Hb1 Hk Hp) as Hl.
  unfold run_submit in *. rewrite run_snoc, Hk. simpl.
  assert (Hst : step k (EvRejects t) = Some (on_catch k t)).
  { unfold step. destruct (phase k); done. }
  rewrite Hst. eexists. split; [reflexivity|].
  unfold on_catch. rewrite Ht. simpl. done.
Qed.

(** After the stream closes, the last published partial object stays
    visible, and both the loading flag and the abort controller are
    cleared. *)
Theorem close_keeps_last_object c0 (input : In) evs k acc latest k' :
  run_submit c0 input evs = Some k -> phase k = PStream acc latest ->
  run_submit c0 input (evs ++ [EvClose]) = Some k' ->
  object (client k') = latest /\ loading (client k') = false /\
  abortController (client k') = false /\ phase k' = PDone.
Proof.
  intros Hk Hp Hk'.
  pose proof (close_step _ _ _ _ _ _ _ Hk Hp Hk') as ->.
  pose proof (run_submit_inflight_inv _ _ _ _ Hk) as Hi.
  unfold inflight_inv in Hi. rewrite Hp in Hi. destruct Hi as (_ & _ & Hob).
  exact (conj Hob (conj eq_refl (conj eq_refl eq_refl))).
Qed.

End MoreSubmit.

(** ** Further properties of the headers literal and of [transformParams] *)

Lemma js_set_fresh (o : list (string * string)) k v :
  k ∉ o.*1 -> js_set o k v = o ++ [(k, v)].
Proof.
  induction o as [|[k0 v0] o IH]; intros Hn; simpl; [done|].
  apply not_elem_of_cons in Hn as [Hne Hn].
  rewrite decide_False by done. by rewrite IH.
Qed.

Lemma request_headers_fold (hs : list (string * string)) v0 rest :
  NoDup hs.*1 -> "Content-Type" ∉ rest.*1 ->
  (forall k, k ∈ hs.*1 -> k ∉ rest.*1) ->
  fold_left (fun o kv => js_set o kv.1 kv.2) hs (("Content-Type", v0) :: rest) =
  ("Content-Type", default v0 (js_get hs "Content-Type")) ::
    rest ++ filter (fun kv => kv.1 <> "Content-Type") hs.
Proof.
  revert v0 rest. induction hs as [|[k v] hs IH]; intros v0 rest Hnd Hct Hdis.
  - simpl. by rewrite app_nil_r.
  - simpl in Hnd. apply NoDup_cons in Hnd as [Hnin Hnd]. simpl.
    destruct (decide (k = "Content-Type")) as [->|Hne].
    + rewrite decide_True by done. rewrite IH; [|done|done|].
      * rewrite filter_cons_False by (simpl; tauto).
        assert (Hg : js_get hs "Content-Type" = None).
        { clear -Hnin. induction hs as [|[k1 v1] hs IH']; simpl; [done|].
          simpl in Hnin. apply not_elem_of_cons in Hnin as [Hne Hnin].
          rewrite decide_False by congruence. by apply IH'. }
        by rewrite Hg.
      * intros k' Hk'. apply Hdis. by apply elem_of_cons; right.
    + rewrite decide_False by done.
      rewrite js_set_fresh
        by (apply Hdis; apply elem_of_cons; by left).
      rewrite IH; [|done| |].
      * rewrite filter_cons_True by (simpl; done).
        by rewrite <- app_assoc.
      * rewrite fmap_app. simpl. intros Hin.
        apply elem_of_app in Hin as [Hin|Hin]; [done|].
        apply list_elem_of_singleton in Hin. congruence.
      * intros k' Hk'. rewrite fmap_app. simpl. intros Hin.
        apply elem_of_app in Hin as [Hin|Hin].
        -- apply (Hdis k'); [by apply elem_of_cons; right|done].
        -- apply list_elem_of_singleton in Hin. subst k'. done.
Qed.

(** For a record of headers with distinct names none of which is an array
    index, the request headers are Content-Type first (the record's own
    value if it has one, otherwise application/json), followed by the
    record's other headers in their order.  (Array-index names are
    excluded: JavaScript enumerates them before all other keys.) *)
Theorem request_headers_shape (hs : list (string * string)) :
  NoDup hs.*1 -> Forall (fun k => is_array_index k = false) hs.*1 ->
  request_headers (HeadersRecord hs) =
  ("Content-Type", default "application/json" (js_get hs "Content-Type")) ::
    filter (fun kv => kv.1 <> "Content-Type") hs.
Proof.
  intros Hnd _. unfold request_headers; simpl.
  rewrite request_headers_fold; [done|done| |].
  - intros Hin. by apply elem_of_nil in Hin.
  - intros k _ Hin. by apply elem_of_nil in Hin.
Qed.

(** Keys of the default settings that [params] does not set keep the
    settings' value (and stay absent when neither has them); the result has
    exactly the keys of both, plus [providerMetadata]. *)
Theorem transformParams_settings_fallback {JV : Type}
    (mergeObjects : option JV -> option JV -> option JV)
    (settings params : gmap string (option JV)) :
  (forall k, k <> "providerMetadata" -> params !! k = None ->
     transformParams mergeObjects settings params !! k = settings !! k) /\
  dom (transformParams mergeObjects settings params) =
    {["providerMetadata"]} ∪ dom params ∪ dom settings.
Proof.
  unfold transformParams. split.
  - intros k Hne Hp. rewrite lookup_insert_ne by congruence.
    by rewrite lookup_union_r.
  - rewrite dom_insert_L, dom_union_L. set_solver.
Qed.

(** ** Witnesses of the further properties *)

Lemma submit_objects_frame_witness :
  exists k,
    run_submit (demo_client EvenSchema true true NoHeaders) 0
      [EvFetchResolves ok_response; EvChunk "ab"; EvClose] = Some k /\
    objects (client k) !! "other" = None.
Proof.
  eexists. split; [reflexivity|].
  match goal with
  | |- objects (client ?k) !! _ = _ =>
      apply (submit_objects_frame (demo_client EvenSchema true true NoHeaders)
               0 [EvFetchResolves ok_response; EvChunk "ab"; EvClose] k);
      [vm_compute; reflexivity|discriminate]
  end.
Defined.

Lemma stream_failure_keeps_partial_witness :
  exists k,
    run_submit (demo_client EvenSchema true true NoHeaders) 0
      [EvFetchResolves ok_response; EvChunk "ab"] = Some k /\
    phase k = PStream "ab" (Some 2) /\
    exists k', run_submit (demo_client EvenSchema true true NoHeaders) 0
      ([EvFetchResolves ok_response; EvChunk "ab"] ++
       [EvRejects (ThrownValue "network down")]) = Some k' /\
    object (client k') = Some 2 /\
    error (client k') = Some (new_Error "network down").
Proof.
  eexists. split; [reflexivity|]. split; [reflexivity|].
  match goal with
  | |- exists k', run_submit _ _ (?evs ++ _) = _ /\ _ =>
      destruct (stream_failure_keeps_partial
                  (demo_client EvenSchema true true NoHeaders) 0 evs
                  (match run_submit (demo_client EvenSchema true true NoHeaders)
                           0 evs with Some k => k | None => begin_submit
                           (demo_client EvenSchema true true NoHeaders) 0 end)
                  "ab" (Some 2) (ThrownValue "network down"))
        as (k' & Hr & Hob & He & _);
        [vm_compute; reflexivity|vm_compute; reflexivity|reflexivity|]
  end.
  exists k'. split; [exact Hr|]. split; [exact Hob|exact He].
Defined.

Lemma stringify_failure_no_request_witness :
  request (begin_submit (demo_client EvenSchema true true NoHeaders) false)
    = None /\
  error (client (begin_submit (demo_client EvenSchema true true NoHeaders) false))
    = Some (mkErr "TypeError" "Do not know how to serialize a BigInt").
Proof.
  destruct (stringify_failure_no_request
              (demo_client EvenSchema true true NoHeaders) false
              (ThrownError (mkErr "TypeError" "Do not know how to serialize a BigInt")))
    as (H1 & _ & _ & H4 & _); [reflexivity|reflexivity|].
  split; [exact H1|exact H4].
Defined.

Lemma abort_without_stop_keeps_loading_witness :
  exists k',
    run_submit (demo_client EvenSchema true true NoHeaders) 0
      ([EvFetchResolves ok_response; EvChunk "ab"] ++ [EvRejects abort_error])
      = Some k' /\
    loading (client k') = true /\ error (client k') = None.
Proof.
  destruct (abort_without_stop_keeps_loading
              (demo_client EvenSchema true true NoHeaders) 0
              [EvFetchResolves ok_response; EvChunk "ab"]
              (match run_submit (demo_client EvenSchema true true NoHeaders) 0
                       [EvFetchResolves ok_response; EvChunk "ab"] with
               | Some k => k
               | None => begin_submit (demo_client EvenSchema true true NoHeaders) 0
               end) abort_error)
    as (k' & Hr & _ & Hl & He & _).
  - vm_compute. reflexivity.
  - intros Hin. apply elem_of_cons in Hin as [Hin|Hin]; [discriminate|].
    apply list_elem_of_singleton in Hin. discriminate.
  - vm_compute. discriminate.
  - reflexivity.
  - exists k'. split; [exact Hr|]. split; [exact Hl|exact He].
Defined.

Lemma close_keeps_last_object_witness :
  exists k',
    run_submit (demo_client EvenSchema true true NoHeaders) 0
      ([EvFetchResolves ok_response; EvChunk "ab"] ++ [EvClose]) = Some k' /\
    object (client k') = Some 2 /\ loading (client k') = false.
Proof.
  eexists. split; [reflexivity|].
  match goal with
  | |- object (client ?k') = _ /\ _ =>
      destruct (close_keeps_last_object
                  (demo_client EvenSchema true true NoHeaders) 0
                  [EvFetchResolves ok_response; EvChunk "ab"]
                  (match run_submit (demo_client EvenSchema true true NoHeaders)
                           0 [EvFetchResolves ok_response; EvChunk "ab"] with
                   | Some k => k
                   | None => begin_submit
                               (demo_client EvenSchema true true NoHeaders) 0
                   end) "ab" (Some 2) k')
        as (Hob & Hl & _);
        [vm_compute; reflexivity|vm_compute; reflexivity
        |vm_compute; reflexivity|]
  end.
  split; [exact Hob|exact Hl].
Defined.

Lemma request_headers_shape_witness :
  request_headers (HeadersRecord [("x-id", "7"); ("content-type", "text/plain")])
  = [("Content-Type", "application/json"); ("x-id", "7");
     ("content-type", "text/plain")].
Proof.
  rewrite request_headers_shape.
  - reflexivity.
  - simpl. apply NoDup_cons. split.
    + intros Hin. apply list_elem_of_singleton in Hin. discriminate.
    + apply NoDup_singleton.
  - simpl. repeat constructor.
Defined.

Lemma transformParams_settings_fallback_witness :
  let settings : gmap string (option nat) :=
    <["maxTokens" := Some 100]> {["temperature" := Some 1]} in
  let params : gmap string (option nat) := {["temperature" := Some 2]} in
  transformParams demo_mergeObjects settings params !! "maxTokens" =
    Some (Some 100).
Proof.
  intros settings params.
  destruct (transformParams_settings_fallback demo_mergeObjects settings params)
    as [H1 _].
  rewrite H1; [reflexivity|discriminate|reflexivity].
Defined.
